(** * lovely-tensors: the start-up hook [_lovely_tensors_hook.py]

    A shallow embedding of the hook that python's [site] machinery runs at
    interpreter start-up, and the properties of its three pieces: the state
    probes ([torch_loaded], [torch_patched]), the patch trigger
    ([_after_import_torch]) and the interception layer ([_TorchFinder],
    [_WrappedTorchLoader]).

    The interpreter state the hook reads and writes ([os.environ],
    [sys.modules], [sys.meta_path], [sys.stderr]) is threaded explicitly.
    Code that lives outside the file (the patch routine of [lovely_tensors],
    the loaders and finders of other packages) is taken as a parameter. *)

From Stdlib Require Import Ascii String.
From stdpp Require Import gmap strings list.

Open Scope string_scope.
Open Scope list_scope.
Open Scope nat_scope.

(** ** Python strings

    A python [str] is modelled by a [string] whose characters are the code
    points below 256. *)
Module PyStr.

(** [str.isspace] on one code point below 256: TAB, LF, VT, FF, CR, the
    separators FS, GS, RS, US, SPACE, NEL and NBSP. *)
Definition isspace (c : ascii) : bool :=
  let n := nat_of_ascii c in
  (((9 <=? n) && (n <=? 13)) || ((28 <=? n) && (n <=? 32))
   || (n =? 133) || (n =? 160))%nat.

(** [str.lower] on one code point below 256: A-Z and the Latin-1 capitals
    U+00C0..U+00DE (but the multiplication sign U+00D7) move up by 32. *)
Definition lower_char (c : ascii) : ascii :=
  let n := nat_of_ascii c in
  if (((65 <=? n) && (n <=? 90))
      || ((192 <=? n) && (n <=? 222) && negb (n =? 215)))%nat
  then ascii_of_nat (n + 32) else c.

Fixpoint lower (s : string) : string :=
  match s with
  | EmptyString => EmptyString
  | String c s' => String (lower_char c) (lower s')
  end.

Fixpoint lstrip (s : string) : string :=
  match s with
  | EmptyString => EmptyString
  | String c s' => if isspace c then lstrip s' else s
  end.

(** [rstrip] drops the trailing run of whitespace: a character is kept when
    it is not whitespace or something is kept after it. *)
Fixpoint rstrip (s : string) : string :=
  match s with
  | EmptyString => EmptyString
  | String c s' =>
      match rstrip s' with
      | EmptyString => if isspace c then EmptyString else String c EmptyString
      | r => String c r
      end
  end.

Definition strip (s : string) : string := rstrip (lstrip s).

(** [needle in hay] for strings. *)
Fixpoint is_prefix (p s : string) : bool :=
  match p, s with
  | EmptyString, _ => true
  | String a p', String b s' => if Ascii.eqb a b then is_prefix p' s' else false
  | String _ _, EmptyString => false
  end.

Fixpoint contains (hay needle : string) : bool :=
  is_prefix needle hay
  || match hay with
     | EmptyString => false
     | String _ hay' => contains hay' needle
     end.

(** Line feed. *)
Definition nl : string := String (ascii_of_nat 10) EmptyString.

End PyStr.

(** ** Exceptions

    [except Exception] catches the instances of [Exception] and lets the
    other instances of [BaseException] ([KeyboardInterrupt], [SystemExit],
    [GeneratorExit]) through. An exception carries what [str(e)] gives. *)
Inductive exn_class : Type :=
  | ClsException                 (* Exception and its subclasses *)
  | ClsBaseExceptionOnly.        (* BaseException, but not Exception *)

Record exn : Type := MkExn {
  exn_cls : exn_class;
  exn_name : string;             (* the class name, e.g. ValueError *)
  exn_str : string               (* str(e) *)
}.

Definition is_Exception (e : exn) : bool :=
  match exn_cls e with ClsException => true | ClsBaseExceptionOnly => false end.

Inductive outcome (A : Type) : Type :=
  | Ok (a : A)
  | Raise (e : exn).
Arguments Ok {A} a.
Arguments Raise {A} e.

(** ** Loaders, module specifications, finders *)

(** A loader is one of another package (known by its address) or a
    [_WrappedTorchLoader] holding its [_real_loader]. *)
Inductive loader : Type :=
  | RealLoader (a : nat)
  | WrappedTorchLoader (_real_loader : loader).

(** [importlib.machinery.ModuleSpec]: the name, the loader (or [None]) and
    the other fields, which the hook never reads, under one tag. *)
Record ModuleSpec : Type := MkSpec {
  spec_name : string;
  spec_loader : option loader;
  spec_rest : nat
}.

(** [spec.loader = l] *)
Definition set_loader (sp : ModuleSpec) (l : loader) : ModuleSpec :=
  {| spec_name := spec_name sp; spec_loader := Some l; spec_rest := spec_rest sp |}.

(** An entry of [sys.meta_path]: an instance of [_TorchFinder] or a finder of
    another class, each known by its address (python compares them by
    identity). *)
Inductive finder : Type :=
  | TorchFinder (a : nat)
  | ForeignFinder (a : nat).

Global Instance finder_eq_dec : EqDecision finder.
Proof. solve_decision. Defined.

(** [isinstance(finder, _TorchFinder)] *)
Definition is_TorchFinder (f : finder) : bool :=
  match f with TorchFinder _ => true | ForeignFinder _ => false end.

(** ** Python values, as far as the probes look into them *)
#[warnings="-register-all"] Inductive value : Type :=
  | VNone
  | VModule (__spec__ : option (option ModuleSpec)) (attrs : gmap string value)
      (* an instance of types.ModuleType; its attribute __spec__ is missing
         ([None]), is None ([Some None]) or holds a specification *)
  | VObject (attrs : gmap string value)   (* any other object with attributes *)
  | VPrim (n : Z).                        (* a number, a string, ...: no attributes of interest *)

(** [isinstance(v, ModuleType)] *)
Definition is_module (v : value) : bool :=
  match v with VModule _ _ => true | _ => false end.

(** [getattr(v, name, None)] *)
Definition getattr_or_None (v : value) (name : string) : value :=
  match v with
  | VModule _ attrs | VObject attrs => default VNone (attrs !! name)
  | _ => VNone
  end.

(** [v.__spec__]; [None] stands for AttributeError. *)
Definition getattr___spec__ (v : value) : option (option ModuleSpec) :=
  match v with
  | VModule sp _ => sp
  | _ => None
  end.

(** [hasattr(v, name)] *)
Definition hasattr (v : value) (name : string) : bool :=
  match v with
  | VModule _ attrs | VObject attrs => bool_decide (is_Some (attrs !! name))
  | _ => false
  end.

(** ** Interpreter state *)
Record pystate : Type := MkPy {
  environ : gmap string string;       (* os.environ *)
  sys_modules : gmap string value;    (* sys.modules *)
  meta_path : list finder;            (* sys.meta_path *)
  stderr : string;                    (* what was written to sys.stderr *)
  next_addr : nat                     (* address of the next object created *)
}.

Definition set_meta_path (l : list finder) (s : pystate) : pystate :=
  {| environ := environ s; sys_modules := sys_modules s; meta_path := l;
     stderr := stderr s; next_addr := next_addr s |}.

(** [print(text, file=sys.stderr)] *)
Definition print_stderr (text : string) (s : pystate) : pystate :=
  {| environ := environ s; sys_modules := sys_modules s; meta_path := meta_path s;
     stderr := stderr s +:+ text +:+ PyStr.nl; next_addr := next_addr s |}.

(** Object creation hands out the next address. *)
Definition alloc (s : pystate) : nat * pystate :=
  (next_addr s,
   {| environ := environ s; sys_modules := sys_modules s; meta_path := meta_path s;
      stderr := stderr s; next_addr := S (next_addr s) |}).

(** ** State probes *)

(** [sys.modules.get(name)] *)
Definition sys_modules_get (name : string) (s : pystate) : value :=
  default VNone (sys_modules s !! name).

(** [torch_loaded] *)
Definition torch_loaded (s : pystate) : bool :=
  is_module (sys_modules_get "torch" s).

(** [torch_patched] *)
Definition torch_patched (s : pystate) : bool :=
  let mod_ := sys_modules_get "torch" s in
  if negb (is_module mod_) then false
  else
    let T := getattr_or_None mod_ "Tensor" in
    match T with
    | VNone => false
    | _ => hasattr T "rgb"
    end.

(** ** Worlds: the interpreter state and a ghost trace

    The trace records, in order, the calls that the properties below speak
    about. Code of other packages sees the interpreter state only, so it
    cannot touch the trace. *)
Inductive event : Type :=
  | EvTrigger                              (* _after_import_torch entered *)
  | EvImportLovelyTensors                  (* import lovely_tensors *)
  | EvMonkeyPatch                          (* lovely_tensors.monkey_patch() *)
  | EvRealCreate (a : nat)                 (* create_module of loader a *)
  | EvRealExec (a : nat)                   (* exec_module of loader a *)
  | EvRemove (f : finder)                  (* sys.meta_path.remove(f) *)
  | EvDelegate (name : string)             (* importlib.util.find_spec(name) *)
  | EvConsult (f : finder) (name : string) (* f.find_spec(name, ...) called by the import system *)
  | EvInstall (f : finder).                (* sys.meta_path.insert(0, f) *)

Global Instance event_eq_dec : EqDecision event.
Proof. solve_decision. Defined.

Record world : Type := MkWorld {
  py : pystate;
  trace : list event
}.

Definition log (ev : event) (w : world) : world :=
  {| py := py w; trace := trace w ++ [ev] |}.

Definition with_py (s : pystate) (w : world) : world :=
  {| py := s; trace := trace w |}.

(** A computation returns a value or raises, and leaves a world. *)
Definition M (A : Type) : Type := world -> outcome A * world.

Definition ret {A} (a : A) : M A := fun w => (Ok a, w).

Definition raise {A} (e : exn) : M A := fun w => (Raise e, w).

Definition bind {A B} (c : M A) (k : A -> M B) : M B :=
  fun w =>
    match c w with
    | (Ok a, w') => k a w'
    | (Raise e, w') => (Raise e, w')
    end.

Notation "'do' x <- c ; k" := (bind c (fun x => k))
  (at level 10, x name, c at level 100, k at level 200).
Notation "'do_' c ; k" := (bind c (fun _ => k))
  (at level 10, c at level 100, k at level 200).

(** [try: body  except <handles> as e: handler e] *)
Definition try_except {A} (body : M A) (handles : exn -> bool) (handler : exn -> M A) : M A :=
  fun w =>
    match body w with
    | (Ok a, w') => (Ok a, w')
    | (Raise e, w') => if handles e then handler e w' else (Raise e, w')
    end.

(** Run code of another package: it works on the interpreter state. *)
Definition foreign {A} (f : pystate -> outcome A * pystate) : M A :=
  fun w => let '(r, s') := f (py w) in (r, with_py s' w).

Definition modify (f : pystate -> pystate) : M unit :=
  fun w => (Ok tt, with_py (f (py w)) w).

Definition emit (ev : event) : M unit := fun w => (Ok tt, log ev w).

(** ** Code of other packages *)
Record externals : Type := MkExt {
  import_lovely_tensors : pystate -> outcome unit * pystate;
  monkey_patch : pystate -> outcome unit * pystate;
  real_has_create_module : nat -> bool;
  real_create_module : nat -> ModuleSpec -> pystate -> outcome value * pystate;
  real_exec_module : nat -> value -> pystate -> outcome unit * pystate;
  foreign_find_spec : nat -> string -> pystate -> outcome (option ModuleSpec) * pystate
}.

(** ** The diagnostic *)

Definition ERROR_MESSAGE : string :=
  "        Error: lovely_tensors.monkey_patch() failed with:" +:+ PyStr.nl +:+
  PyStr.nl +:+
  "        {}" +:+ PyStr.nl +:+
  PyStr.nl +:+
  "        If you uninstalled lovely_tensors, you should delete any '_lovely_tensors_hook.pth'" +:+ PyStr.nl +:+
  "        file on your system and unset your 'LOVELY_TENSORS' environment variable." +:+ PyStr.nl +:+
  "        ".

(** [template.format(arg)] for a template with one field [{}]. *)
Fixpoint format (template arg : string) : string :=
  match template with
  | EmptyString => EmptyString
  | String c rest =>
      match rest with
      | String c' rest' =>
          if (Ascii.eqb c "{" && Ascii.eqb c' "}")%bool then arg +:+ rest'
          else String c (format rest arg)
      | EmptyString => String c EmptyString
      end
  end.

(** The diagnostic around the text of the exception. *)
Definition diagnostic_head : string :=
  "        Error: lovely_tensors.monkey_patch() failed with:" +:+ PyStr.nl +:+
  PyStr.nl +:+
  "        ".

Definition diagnostic_tail : string :=
  PyStr.nl +:+
  PyStr.nl +:+
  "        If you uninstalled lovely_tensors, you should delete any '_lovely_tensors_hook.pth'" +:+ PyStr.nl +:+
  "        file on your system and unset your 'LOVELY_TENSORS' environment variable." +:+ PyStr.nl +:+
  "        ".

Definition AttributeError (msg : string) : exn :=
  {| exn_cls := ClsException; exn_name := "AttributeError"; exn_str := msg |}.

Definition ValueError (msg : string) : exn :=
  {| exn_cls := ClsException; exn_name := "ValueError"; exn_str := msg |}.

Section Hook.

Variable E : externals.

(** ** Patch trigger *)

(** [import lovely_tensors; lovely_tensors.monkey_patch()] *)
Definition patch_routine : M unit :=
  do_ emit EvImportLovelyTensors;
  do_ foreign (import_lovely_tensors E);
  do_ emit EvMonkeyPatch;
  foreign (monkey_patch E).

(** [_after_import_torch] *)
Definition _after_import_torch : M unit :=
  do_ emit EvTrigger;
  fun w =>
    if negb (torch_patched (py w)) then
      try_except
        patch_routine
        is_Exception
        (fun e =>
           do_ modify (print_stderr (format ERROR_MESSAGE (exn_str e)));
           raise e)
        w
    else ret tt w.

(** ** Wrapping loader *)

(** [hasattr(l, "create_module")] *)
Definition has_create_module (l : loader) : bool :=
  match l with
  | RealLoader a => real_has_create_module E a
  | WrappedTorchLoader _ => true
  end.

(** [l.create_module(spec)]; for a [_WrappedTorchLoader] this is its method
    [create_module]. *)
Fixpoint create_module (l : loader) (spec : ModuleSpec) : M value :=
  match l with
  | RealLoader a =>
      if real_has_create_module E a then
        do_ emit (EvRealCreate a); foreign (real_create_module E a spec)
      else raise (AttributeError "create_module")
  | WrappedTorchLoader _real_loader =>
      if has_create_module _real_loader then create_module _real_loader spec
      else ret VNone
  end.

(** [l.exec_module(module)]; for a [_WrappedTorchLoader] this is its method
    [exec_module]. *)
Fixpoint exec_module (l : loader) (module : value) : M unit :=
  match l with
  | RealLoader a =>
      do_ emit (EvRealExec a); foreign (real_exec_module E a module)
  | WrappedTorchLoader _real_loader =>
      do_ exec_module _real_loader module;
      _after_import_torch
  end.

(** ** The import system, as far as the finder calls into it

    [importlib.util.find_spec] and [importlib._bootstrap._find_spec] of
    CPython, for a top-level name (one without a dot, so no parent package
    is imported). They belong to the interpreter; the finder's delegated
    resolution runs them, and they call back into the finders of
    [sys.meta_path]. Every finder has a [find_spec] method. *)

Definition finder_result : Type := outcome (option ModuleSpec) * world.

Section ImportSystem.

(** How a [_TorchFinder] answers; [None] when the answer needs more
    fuel than there is. *)
Variable torch_find_spec : finder -> string -> world -> option finder_result.

(** [finder.find_spec(name, None, None)] *)
Definition consult (fd : finder) (name : string) (w : world) : option finder_result :=
  match fd with
  | TorchFinder _ => torch_find_spec fd name (log (EvConsult fd name) w)
  | ForeignFinder a =>
      Some (foreign (foreign_find_spec E a name) (log (EvConsult fd name) w))
  end.

(** The spec a finder gave, checked as [_find_spec] does: if the
    finder's work put the module into [sys.modules], the module's own
    [__spec__] wins when it is set. *)
Definition found (spec : ModuleSpec) (name : string) (is_reload : bool) (w : world)
  : ModuleSpec :=
  if negb is_reload && bool_decide (is_Some (sys_modules (py w) !! name)) then
    match getattr___spec__ (sys_modules_get name (py w)) with
    | None => spec                       (* AttributeError *)
    | Some None => spec
    | Some (Some __spec__) => __spec__
    end
  else spec.

(** [for finder in meta_path: ...] of [_find_spec], from entry [i] on.
    The loop reads the list as it is at each step. [steps] bounds the
    number of finders asked. *)
Fixpoint _find_spec_loop (steps i : nat) (name : string) (is_reload : bool) (w : world)
  : option finder_result :=
  match meta_path (py w) !! i with
  | None => Some (Ok None, w)
  | Some fd =>
      match steps with
      | O => None
      | S steps' =>
          match consult fd name w with
          | None => None
          | Some (Raise e, w') => Some (Raise e, w')
          | Some (Ok None, w') => _find_spec_loop steps' (S i) name is_reload w'
          | Some (Ok (Some spec), w') =>
              Some (Ok (Some (found spec name is_reload w')), w')
          end
      end
  end.

(** [importlib._bootstrap._find_spec(name, None)] *)
Definition _find_spec (steps : nat) (name : string) (w : world) : option finder_result :=
  let is_reload := bool_decide (is_Some (sys_modules (py w) !! name)) in
  _find_spec_loop steps 0 name is_reload w.

(** [importlib.util.find_spec(fullname)] *)
Definition importlib_util_find_spec (steps : nat) (fullname : string) (w : world)
  : option finder_result :=
  match sys_modules (py w) !! fullname with
  | None => _find_spec steps fullname w
  | Some VNone => Some (Ok None, w)
  | Some module =>
      match getattr___spec__ module with
      | None => Some (Raise (ValueError (fullname +:+ ".__spec__ is not set")), w)
      | Some None => Some (Raise (ValueError (fullname +:+ ".__spec__ is None")), w)
      | Some (Some spec) => Some (Ok (Some spec), w)
      end
  end.

End ImportSystem.

(** ** Finder *)

(** [list.remove(x)]: the first entry equal to [x] goes; [None] stands for
    ValueError. *)
Fixpoint list_remove (x : finder) (l : list finder) : option (list finder) :=
  match l with
  | [] => None
  | y :: l' => if decide (y = x) then Some l' else (y ::.) <$> list_remove x l'
  end.

(** [try: sys.meta_path.remove(self)  except ValueError: pass] *)
Definition remove_from_meta_path (self : finder) (w : world) : world :=
  let w := log (EvRemove self) w in
  match list_remove self (meta_path (py w)) with
  | Some l => with_py (set_meta_path l (py w)) w
  | None => w
  end.

(** [_TorchFinder.find_spec]. The delegated resolution can come back to
    finders of this class; [fuel] bounds how deep. *)
Fixpoint _TorchFinder_find_spec (fuel : nat) (self : finder) (fullname : string) (w : world)
  : option finder_result :=
  if negb (String.eqb fullname "torch") then Some (Ok None, w)
  else
    match fuel with
    | O => None
    | S fuel' =>
        let w1 := remove_from_meta_path self w in
        match importlib_util_find_spec (_TorchFinder_find_spec fuel') fuel' fullname
                (log (EvDelegate fullname) w1) with
        | None => None
        | Some (Raise e, w2) => Some (Raise e, w2)
        | Some (Ok None, w2) => Some (Ok None, w2)
        | Some (Ok (Some real_spec), w2) =>
            match spec_loader real_spec with
            | None => Some (Ok (Some real_spec), w2)
            | Some real_loader =>
                Some (Ok (Some (set_loader real_spec (WrappedTorchLoader real_loader))), w2)
            end
        end
    end.

(** ** Start-up code *)

(** [os.environ.get("LOVELY_TENSORS", "").strip().lower() in {"1", "true", "yes"}] *)
Definition flag_enabled (s : pystate) : bool :=
  bool_decide
    (PyStr.lower (PyStr.strip (default "" (environ s !! "LOVELY_TENSORS")))
     ∈ ({[ "1"; "true"; "yes" ]} : gset string)).

(** [sys.meta_path.insert(0, _TorchFinder())] *)
Definition install_finder : M unit :=
  fun w =>
    let '(a, s) := alloc (py w) in
    let self := TorchFinder a in
    (Ok tt, log (EvInstall self) (with_py (set_meta_path (self :: meta_path s) s) w)).

(** The statements the module runs after its definitions. *)
Definition module_toplevel : M unit :=
  fun w =>
    if flag_enabled (py w) then
      if torch_loaded (py w) then _after_import_torch w
      else if negb (existsb is_TorchFinder (meta_path (py w))) then install_finder w
      else ret tt w
    else ret tt w.

End Hook.

(** ** Vocabulary of the properties *)

(** [v] is an object that has the attribute [name]. *)
Inductive exposes (name : string) : value -> Prop :=
  | exposes_module sp attrs : is_Some (attrs !! name) -> exposes name (VModule sp attrs)
  | exposes_object attrs : is_Some (attrs !! name) -> exposes name (VObject attrs).

(** The calls of the patch routine that a trace records. *)
Definition patch_calls (t : list event) : nat :=
  length (filter (λ ev, ev = EvMonkeyPatch) t).

(** The instances of [_TorchFinder] in a hook registry, with repetitions. *)
Definition torch_finders (l : list finder) : nat :=
  length (filter (λ f, is_TorchFinder f = true) l).


(** Code of another package that leaves [sys.meta_path] alone. *)
Definition keeps_meta_path {A} (f : pystate -> outcome A * pystate) : Prop :=
  ∀ s, meta_path (snd (f s)) = meta_path s.

Record well_behaved (E : externals) : Prop := MkWellBehaved {
  wb_import : keeps_meta_path (import_lovely_tensors E);
  wb_patch : keeps_meta_path (monkey_patch E);
  wb_create : ∀ a spec, keeps_meta_path (real_create_module E a spec);
  wb_exec : ∀ a module, keeps_meta_path (real_exec_module E a module);
  wb_find : ∀ a name, keeps_meta_path (foreign_find_spec E a name)
}.

(** No call of [self.find_spec] by the import system is recorded in [t]. *)
Definition no_consult (self : finder) (t : list event) : Prop :=
  ∀ name, EvConsult self name ∉ t.

(** [w'] comes after [w]: the hook registry has only lost entries, the trace
    has only grown, and if [self] was not registered in [w] then the import
    system has not called it in between. *)
Definition follows (self : finder) (w w' : world) : Prop :=
  meta_path (py w') `sublist_of` meta_path (py w) ∧
  ∃ t, trace w' = trace w ++ t ∧ (self ∉ meta_path (py w) → no_consult self t).


(** The value of the flag as the start-up code compares it. *)
Definition flag_value (s : pystate) : string :=
  PyStr.lower (PyStr.strip (default "" (environ s !! "LOVELY_TENSORS"))).

(** What the finder makes of the answer of the delegated resolution. *)
Inductive wraps : outcome (option ModuleSpec) -> outcome (option ModuleSpec) -> Prop :=
  | wraps_raise e : wraps (Raise e) (Raise e)
  | wraps_none : wraps (Ok None) (Ok None)
  | wraps_no_loader spec :
      spec_loader spec = None -> wraps (Ok (Some spec)) (Ok (Some spec))
  | wraps_loader spec real_loader :
      spec_loader spec = Some real_loader ->
      wraps (Ok (Some spec))
            (Ok (Some {| spec_name := spec_name spec;
                         spec_loader := Some (WrappedTorchLoader real_loader);
                         spec_rest := spec_rest spec |})).

(** A way of answering for the finders of this class that only moves forward. *)
Definition call_follows (self : finder)
    (call : finder -> string -> world -> option finder_result) : Prop :=
  ∀ fd name w r w', call fd name w = Some (r, w') -> follows self w w'.


(** ** Concrete interpreters, for the examples *)
Module Demo.

Definition torch_spec : ModuleSpec :=
  {| spec_name := "torch"; spec_loader := Some (RealLoader 5); spec_rest := 0 |}.

(** [torch] as its own code leaves it: a [Tensor] class without [rgb]. *)
Definition torch_module : value :=
  VModule (Some (Some torch_spec)) {[ "Tensor" := VObject ∅ ]}.

(** [torch.Tensor.rgb = ...] *)
Definition add_rgb (v : value) : value :=
  match v with
  | VModule sp attrs => VModule sp (<[ "rgb" := VPrim 1 ]> attrs)
  | VObject attrs => VObject (<[ "rgb" := VPrim 1 ]> attrs)
  | _ => v
  end.

Definition patch_Tensor (v : value) : value :=
  match v with
  | VModule sp attrs => VModule sp (alter add_rgb "Tensor" attrs)
  | _ => v
  end.

Definition set_rgb (s : pystate) : pystate :=
  {| environ := environ s; sys_modules := alter patch_Tensor "torch" (sys_modules s);
     meta_path := meta_path s; stderr := stderr s; next_addr := next_addr s |}.

Definition load_torch (s : pystate) : pystate :=
  {| environ := environ s; sys_modules := <[ "torch" := torch_module ]> (sys_modules s);
     meta_path := meta_path s; stderr := stderr s; next_addr := next_addr s |}.

(** A working installation: the patch adds [rgb]; finder 1 knows [torch],
    which loader 5 executes. *)
Definition working : externals :=
  {| import_lovely_tensors := λ s, (Ok tt, s);
     monkey_patch := λ s, (Ok tt, set_rgb s);
     real_has_create_module := λ _, true;
     real_create_module := λ _ _ s, (Ok VNone, s);
     real_exec_module := λ _ _ s, (Ok tt, load_torch s);
     foreign_find_spec := λ a name s,
       (Ok (if (a =? 1)%nat && String.eqb name "torch" then Some torch_spec else None), s) |}.

Definition with_monkey_patch (f : pystate -> outcome unit * pystate) (E : externals)
  : externals :=
  {| import_lovely_tensors := import_lovely_tensors E;
     monkey_patch := f;
     real_has_create_module := real_has_create_module E;
     real_create_module := real_create_module E;
     real_exec_module := real_exec_module E;
     foreign_find_spec := foreign_find_spec E |}.

Definition RuntimeError (msg : string) : exn :=
  {| exn_cls := ClsException; exn_name := "RuntimeError"; exn_str := msg |}.

Definition KeyboardInterrupt : exn :=
  {| exn_cls := ClsBaseExceptionOnly; exn_name := "KeyboardInterrupt"; exn_str := "" |}.

(** The patch routine fails at once. *)
Definition failing : externals :=
  with_monkey_patch (λ s, (Raise (RuntimeError "boom"), s)) working.

(** The patch routine adds [rgb] and fails on a later attribute. *)
Definition half_patching : externals :=
  with_monkey_patch (λ s, (Raise (RuntimeError "boom"), set_rgb s)) working.

(** The user interrupts the patch routine. *)
Definition interrupted : externals :=
  with_monkey_patch (λ s, (Raise KeyboardInterrupt, s)) working.

(** An interpreter at start-up. *)
Definition interpreter (flag : option string) (modules : gmap string value)
    (finders : list finder) : world :=
  {| py := {| environ := from_option (λ v, {[ "LOVELY_TENSORS" := v ]}) ∅ flag;
              sys_modules := modules;
              meta_path := finders;
              stderr := "";
              next_addr := 100 |};
     trace := [] |}.

(** The flag is set and [torch] was imported before the hook ran. *)
Definition torch_imported : world :=
  interpreter (Some "1") {[ "torch" := torch_module ]} [ForeignFinder 1].

(** The flag is set, [torch] is not imported, nothing is installed. *)
Definition fresh : world :=
  interpreter (Some " YES ") ∅ [ForeignFinder 1].

(** The hook ran before: its finder is installed. *)
Definition armed : world :=
  interpreter (Some "1") ∅ [TorchFinder 7; ForeignFinder 1].

End Demo.

(** ** Further vocabulary *)

(** Every character of [s] is whitespace. *)
Fixpoint all_space (s : string) : bool :=
  match s with
  | EmptyString => true
  | String c s' => PyStr.isspace c && all_space s'
  end.

(** No character of [s] is whitespace. *)
Fixpoint no_space (s : string) : bool :=
  match s with
  | EmptyString => true
  | String c s' => negb (PyStr.isspace c) && no_space s'
  end.

(** A patch routine that sets the marker whenever it returns. *)
Definition patch_establishes (E : externals) : Prop :=
  ∀ s s', monkey_patch E s = (Ok tt, s') -> torch_patched s' = true.

(** The events of a resolution: removals, delegations, consultations. *)
Definition resolution_event (ev : event) : bool :=
  match ev with
  | EvRemove _ | EvDelegate _ | EvConsult _ _ => true
  | _ => false
  end.

(** The events of module creation. *)
Definition creation_event (ev : event) : bool :=
  match ev with
  | EvRealCreate _ => true
  | _ => false
  end.

(** The registry of [w] replaced by [l]. *)
Definition with_meta_path (l : list finder) (w : world) : world :=
  with_py (set_meta_path l (py w)) w.

(** ** An installation whose patch checks what it patches *)
Module Careful.

(** [monkey_patch] of a [lovely_tensors] that adds [rgb] to the class
    [torch.Tensor] and raises when there is no such class. *)
Definition monkey_patch (s : pystate) : outcome unit * pystate :=
  match sys_modules s !! "torch" with
  | Some (VModule _ attrs) =>
      match attrs !! "Tensor" with
      | Some (VObject _) => (Ok tt, Demo.set_rgb s)
      | _ => (Raise (AttributeError "Tensor"), s)
      end
  | _ => (Raise (AttributeError "torch"), s)
  end.

Definition installation : externals :=
  Demo.with_monkey_patch monkey_patch Demo.working.

End Careful.

(** The loader of another package that a chain of wrappers ends in. *)
Fixpoint innermost (l : loader) : nat :=
  match l with
  | RealLoader a => a
  | WrappedTorchLoader _real_loader => innermost _real_loader
  end.

(** An interpreter with the flag set where [torch] is imported and patched. *)
Definition patched_interpreter : world :=
  snd (_after_import_torch Demo.working Demo.torch_imported).

(** Two runs of a resolution give the same answer and leave the same
    interpreter state (their traces may differ), or both run out of fuel. *)
Definition same_answer (a b : option finder_result) : Prop :=
  match a, b with
  | Some (r, w), Some (r', w') => r = r' ∧ py w = py w'
  | None, None => True
  | _, _ => False
  end.

(** [w'] comes after [w] by a resolution: the trace has grown by removals,
    delegations and consultations only. *)
Definition resolves (w w' : world) : Prop :=
  ∃ t, trace w' = trace w ++ t ∧ Forall (λ ev, resolution_event ev = true) t.

(** A finder that is never asked. *)
Definition unasked : finder -> string -> world -> option finder_result :=
  λ _ _ _, None.

(** The hook is still in place but [lovely_tensors] was uninstalled. *)
Definition uninstalled : externals :=
  {| import_lovely_tensors := λ s,
       (Raise {| exn_cls := ClsException; exn_name := "ModuleNotFoundError";
                 exn_str := "No module named 'lovely_tensors'" |}, s);
     monkey_patch := monkey_patch Demo.working;
     real_has_create_module := real_has_create_module Demo.working;
     real_create_module := real_create_module Demo.working;
     real_exec_module := real_exec_module Demo.working;
     foreign_find_spec := foreign_find_spec Demo.working |}.

(** * Properties *)

(** ** State probes *)

Lemma exposes_hasattr name v : hasattr v name = true ↔ exposes name v.
Proof.
  split.
  - destruct v as [|sp attrs|attrs|n]; simpl; try discriminate;
      intros H%bool_decide_eq_true; by constructor.
  - intros [sp attrs H|attrs H]; simpl; by apply bool_decide_eq_true.
Qed.

(** C7: [torch_patched] answers true exactly when [sys.modules] holds a
    module object under "torch", that module has an attribute [Tensor], and
    the value of [Tensor] has an attribute [rgb]. It is a total function into
    [bool], so in every other case it answers false and nothing is raised. *)
Theorem torch_patched_iff (s : pystate) :
  let patched :=
    ∃ sp attrs T,
      sys_modules s !! "torch" = Some (VModule sp attrs) ∧
      attrs !! "Tensor" = Some T ∧
      exposes "rgb" T in
  (torch_patched s = true ↔ patched) ∧ (torch_patched s = false ↔ ¬ patched).
Proof.
  intros patched.
  assert (torch_patched s = true ↔ patched) as Hiff; last first.
  { split; [done|]. rewrite <- Hiff. by destruct (torch_patched s). }
  unfold patched, torch_patched, sys_modules_get. split.
  - destruct (sys_modules s !! "torch") as [[|sp attrs|attrs|n]|] eqn:Hm;
      simpl; try discriminate.
    destruct (attrs !! "Tensor") as [T|] eqn:HT; simpl; [|discriminate].
    intros H. exists sp, attrs, T. split_and!; [done..|].
    apply exposes_hasattr. by destruct T.
  - intros (sp & attrs & T & -> & HT & Hex). simpl. rewrite HT. simpl.
    apply exposes_hasattr in Hex. destruct T; done.
Qed.

(** ** Patch trigger and wrapping loader *)

Lemma trigger_patched E w :
  torch_patched (py w) = true →
  _after_import_torch E w = (Ok tt, log EvTrigger w).
Proof. intros H. unfold _after_import_torch, bind, emit. simpl. by rewrite H. Qed.

Lemma trigger_unpatched E w :
  torch_patched (py w) = false →
  _after_import_torch E w =
    match patch_routine E (log EvTrigger w) with
    | (Ok a, w') => (Ok a, w')
    | (Raise e, w') =>
        if is_Exception e
        then (Raise e, with_py (print_stderr (format ERROR_MESSAGE (exn_str e)) (py w')) w')
        else (Raise e, w')
    end.
Proof.
  intros H. unfold _after_import_torch, bind at 1, emit. simpl. rewrite H. simpl.
  unfold try_except. destruct (patch_routine E (log EvTrigger w)) as [[[]|e] w']; [done|].
  destruct (is_Exception e); done.
Qed.

(** The patch routine, step by step. *)
Lemma patch_routine_run E w :
  patch_routine E w =
    match import_lovely_tensors E (py w) with
    | (Raise e, s1) => (Raise e, {| py := s1; trace := trace w ++ [EvImportLovelyTensors] |})
    | (Ok _, s1) =>
        let '(r, s2) := monkey_patch E s1 in
        (r, {| py := s2; trace := (trace w ++ [EvImportLovelyTensors]) ++ [EvMonkeyPatch] |})
    end.
Proof.
  unfold patch_routine, bind, emit, foreign, log, with_py. simpl.
  destruct (import_lovely_tensors E (py w)) as [[[]|e] s1]; [|done]. simpl.
  by destruct (monkey_patch E s1) as [r s2].
Qed.

Lemma trigger_trace E w :
  ∃ t, trace (snd (_after_import_torch E w)) = trace w ++ EvTrigger :: t.
Proof.
  destruct (torch_patched (py w)) eqn:Hp.
  - rewrite trigger_patched by done. exists []. done.
  - rewrite trigger_unpatched by done. rewrite patch_routine_run. simpl.
    destruct (import_lovely_tensors E (py w)) as [[[]|e] s1].
    + destruct (monkey_patch E s1) as [[[]|e] s2]; [|destruct (is_Exception e)];
        simpl; rewrite <- !app_assoc; eauto.
    + destruct (is_Exception e); simpl; rewrite <- !app_assoc; eauto.
Qed.

(** C1: [exec_module] of the wrapping loader first runs [exec_module] of the
    loader it holds, to the end. If that raises, the exception goes to the
    caller with the world as the held loader left it: the patch trigger is not
    invoked. If it returns, the trigger runs on the world it left, so the
    trigger's entry comes in the trace after everything the held loader did.
    For a loader of another package the trace reads: its [exec_module], then
    the trigger. *)
Theorem exec_module_then_trigger E (_real_loader : loader) (module : value) (w : world) :
  (∃ r1 w1,
     exec_module E _real_loader module w = (r1, w1) ∧
     match r1 with
     | Raise e =>
         exec_module E (WrappedTorchLoader _real_loader) module w = (Raise e, w1)
     | Ok _ =>
         exec_module E (WrappedTorchLoader _real_loader) module w = _after_import_torch E w1 ∧
         ∃ t, trace (snd (exec_module E (WrappedTorchLoader _real_loader) module w))
              = trace w1 ++ EvTrigger :: t
     end) ∧
  (∀ a,
     match real_exec_module E a module (py w) with
     | (Raise e, s1) =>
         exec_module E (WrappedTorchLoader (RealLoader a)) module w
           = (Raise e, {| py := s1; trace := trace w ++ [EvRealExec a] |})
     | (Ok _, s1) =>
         ∃ t, trace (snd (exec_module E (WrappedTorchLoader (RealLoader a)) module w))
              = trace w ++ EvRealExec a :: EvTrigger :: t
     end).
Proof.
  split; last first.
  { intros a. simpl. unfold bind, emit, foreign. simpl.
    destruct (real_exec_module E a module (py w)) as [[[]|e] s1]; [|done].
    destruct (trigger_trace E (with_py s1 (log (EvRealExec a) w))) as [t Ht].
    exists t. rewrite Ht. simpl. by rewrite <- app_assoc. }
  destruct (exec_module E _real_loader module w) as [r1 w1] eqn:Hreal.
  exists r1, w1. split; [done|].
  assert (Hwrap : exec_module E (WrappedTorchLoader _real_loader) module w
                  = match r1 with
                    | Ok _ => _after_import_torch E w1
                    | Raise e => (Raise e, w1)
                    end).
  { simpl. unfold bind at 1. by rewrite Hreal. }
  rewrite Hwrap. destruct r1 as [[]|e]; [|done].
  split; [done|]. apply trigger_trace.
Qed.

Lemma patch_calls_app t1 t2 : patch_calls (t1 ++ t2) = patch_calls t1 + patch_calls t2.
Proof. unfold patch_calls. by rewrite filter_app, length_app. Qed.

Lemma format_ERROR_MESSAGE msg :
  format ERROR_MESSAGE msg = diagnostic_head +:+ msg +:+ diagnostic_tail.
Proof. reflexivity. Qed.

(** C4: the patch trigger is idempotent. Started where [torch_patched] is
    false, a first call that returns, and whose patch set the marker, is
    followed by a second call that returns at once and leaves the interpreter
    state as it is: the trace of the two calls holds exactly one call of the
    patch routine. Wherever [torch_patched] is already true the trigger
    returns at once, having called nothing. *)
Theorem trigger_idempotent E (w w1 : world) :
  torch_patched (py w) = false →
  _after_import_torch E w = (Ok tt, w1) →
  torch_patched (py w1) = true →
  (∃ w2, _after_import_torch E w1 = (Ok tt, w2) ∧
         py w2 = py w1 ∧
         patch_calls (trace w2) = S (patch_calls (trace w))) ∧
  (∀ w', torch_patched (py w') = true →
         _after_import_torch E w' = (Ok tt, log EvTrigger w')).
Proof.
  intros Hun Hfirst Hmark. split; [|apply trigger_patched].
  exists (log EvTrigger w1). split_and!; [by apply trigger_patched|done|].
  rewrite trigger_unpatched, patch_routine_run in Hfirst by done.
  simpl in Hfirst.
  destruct (import_lovely_tensors E (py w)) as [[[]|e] s1].
  - destruct (monkey_patch E s1) as [[[]|e] s2].
    + injection Hfirst as <-. simpl. rewrite <- !app_assoc. simpl.
      rewrite patch_calls_app.
      change (patch_calls [EvTrigger; EvImportLovelyTensors; EvMonkeyPatch; EvTrigger])
        with 1.
      lia.
    + destruct (is_Exception e); discriminate.
  - destruct (is_Exception e); discriminate.
Qed.

Lemma trigger_idempotent_witness :
  ∃ w2, _after_import_torch Demo.working
          (snd (_after_import_torch Demo.working Demo.torch_imported)) = (Ok tt, w2) ∧
        patch_calls (trace w2) = 1.
Proof.
  destruct (trigger_idempotent Demo.working Demo.torch_imported
              (snd (_after_import_torch Demo.working Demo.torch_imported)))
    as [(w2 & H2 & _ & Hcalls) _].
  - vm_compute. reflexivity.
  - vm_compute. reflexivity.
  - vm_compute. reflexivity.
  - exists w2. split; [exact H2|exact Hcalls].
Defined.

(** C5, amended: when the patch routine raises an instance of [Exception],
    the trigger writes one diagnostic to the error stream (the head naming
    the failure, [str(e)], the tail telling to delete the hook file and to
    unset the environment variable) and raises the same exception. An
    exception that is not an instance of [Exception] passes through the
    trigger with no diagnostic. *)
Theorem trigger_diagnoses_Exception E (w w' : world) (e : exn) :
  torch_patched (py w) = false →
  patch_routine E (log EvTrigger w) = (Raise e, w') →
  (is_Exception e = true →
     _after_import_torch E w =
       (Raise e, with_py (print_stderr (format ERROR_MESSAGE (exn_str e)) (py w')) w') ∧
     stderr (print_stderr (format ERROR_MESSAGE (exn_str e)) (py w'))
       = stderr (py w') +:+ (diagnostic_head +:+ exn_str e +:+ diagnostic_tail) +:+ PyStr.nl ∧
     PyStr.contains diagnostic_head "lovely_tensors.monkey_patch() failed with:" = true ∧
     PyStr.contains diagnostic_tail "delete any '_lovely_tensors_hook.pth'" = true ∧
     PyStr.contains diagnostic_tail "unset your 'LOVELY_TENSORS' environment variable" = true) ∧
  (is_Exception e = false → _after_import_torch E w = (Raise e, w')).
Proof.
  intros Hun Hraise. rewrite trigger_unpatched, Hraise by done.
  split; intros ->; [|done].
  split_and!; [done|by rewrite <- format_ERROR_MESSAGE|reflexivity..].
Qed.

Lemma trigger_diagnoses_Exception_witness :
  fst (_after_import_torch Demo.failing Demo.torch_imported) = Raise (Demo.RuntimeError "boom") ∧
  PyStr.contains (stderr (py (snd (_after_import_torch Demo.failing Demo.torch_imported))))
    "failed with:" = true.
Proof.
  destruct (trigger_diagnoses_Exception Demo.failing Demo.torch_imported
              (snd (patch_routine Demo.failing (log EvTrigger Demo.torch_imported)))
              (Demo.RuntimeError "boom")) as [H _].
  - vm_compute. reflexivity.
  - vm_compute. reflexivity.
  - destruct H as (Hrun & _); [reflexivity|].
    rewrite Hrun. split; vm_compute; reflexivity.
Defined.

(** C5 as stated fails: a [KeyboardInterrupt] raised by the patch routine
    leaves the trigger with nothing written to the error stream. *)
Lemma interrupt_not_diagnosed :
  ∃ w', patch_routine Demo.interrupted (log EvTrigger Demo.torch_imported)
          = (Raise Demo.KeyboardInterrupt, w') ∧
        _after_import_torch Demo.interrupted Demo.torch_imported
          = (Raise Demo.KeyboardInterrupt, w') ∧
        stderr (py w') = "".
Proof. eexists. split_and!; vm_compute; reflexivity. Qed.

(** C9, amended: when the patch routine raises, the trigger raises the same
    exception and leaves [sys.modules] as the routine left it, so the marker
    is there afterwards exactly when the failing routine had put it there. *)
Theorem failed_patch_state E (w w' : world) (e : exn) :
  torch_patched (py w) = false →
  patch_routine E (log EvTrigger w) = (Raise e, w') →
  ∃ w'', _after_import_torch E w = (Raise e, w'') ∧
         sys_modules (py w'') = sys_modules (py w') ∧
         torch_patched (py w'') = torch_patched (py w').
Proof.
  intros Hun Hraise. rewrite trigger_unpatched, Hraise by done.
  destruct (is_Exception e); eexists; split_and!; done.
Qed.

Lemma failed_patch_state_witness :
  torch_patched (py (snd (_after_import_torch Demo.failing Demo.torch_imported))) = false.
Proof.
  destruct (failed_patch_state Demo.failing Demo.torch_imported
              (snd (patch_routine Demo.failing (log EvTrigger Demo.torch_imported)))
              (Demo.RuntimeError "boom")) as (w'' & Hrun & _ & Hsame).
  - vm_compute. reflexivity.
  - vm_compute. reflexivity.
  - rewrite Hrun. simpl. rewrite Hsame. vm_compute. reflexivity.
Defined.

(** C9 as stated fails: a patch routine that adds [rgb] and raises on a
    later step leaves the marker on [Tensor] after the trigger re-raised. *)
Lemma half_patch_leaves_marker :
  torch_patched (py Demo.torch_imported) = false ∧
  ∃ w', _after_import_torch Demo.half_patching Demo.torch_imported
          = (Raise (Demo.RuntimeError "boom"), w') ∧
        torch_patched (py w') = true.
Proof. split; [|eexists; split]; vm_compute; reflexivity. Qed.

(** ** Start-up code *)

Lemma flag_enabled_iff s :
  flag_enabled s = true ↔
  flag_value s = "1" ∨ flag_value s = "true" ∨ flag_value s = "yes".
Proof.
  unfold flag_enabled. fold (flag_value s).
  rewrite bool_decide_eq_true, !elem_of_union, !elem_of_singleton. tauto.
Qed.


Lemma install_finder_run w :
  install_finder w =
    (Ok tt,
     {| py := {| environ := environ (py w); sys_modules := sys_modules (py w);
                 meta_path := TorchFinder (next_addr (py w)) :: meta_path (py w);
                 stderr := stderr (py w); next_addr := S (next_addr (py w)) |};
        trace := trace w ++ [EvInstall (TorchFinder (next_addr (py w)))] |}).
Proof. reflexivity. Qed.



(** ** Finder *)



(** The working installation leaves the registry alone. *)
Lemma working_well_behaved : well_behaved Demo.working.
Proof. by split. Qed.

(** ** The hook registry along a resolution *)

Lemma list_remove_sublist x l l' : list_remove x l = Some l' → l' `sublist_of` l.
Proof.
  revert l'. induction l as [|y l IH]; intros l'; simpl; [done|].
  destruct (decide (y = x)) as [->|Hne].
  - intros [= ->]. by apply sublist_cons.
  - destruct (list_remove x l) as [k|]; simpl; [|done].
    intros [= <-]. apply sublist_skip. by apply IH.
Qed.


Lemma list_remove_None x l : list_remove x l = None ↔ x ∉ l.
Proof.
  induction l as [|y l IH]; simpl.
  - split; [intros _; apply not_elem_of_nil|done].
  - rewrite not_elem_of_cons. destruct (decide (y = x)) as [->|Hne].
    + split; [done|]. intros [? _]; done.
    + destruct (list_remove x l) as [k|]; simpl.
      * split; [done|]. intros [_ H]. by apply IH in H.
      * split; [|done]. intros _. split; [done|]. by apply IH.
Qed.


Lemma torch_finders_sublist l1 l2 :
  l1 `sublist_of` l2 → torch_finders l1 ≤ torch_finders l2.
Proof.
  unfold torch_finders. induction 1 as [|x l1 l2 _ IH|x l1 l2 _ IH]; [done|..];
    rewrite ?filter_cons; destruct (decide (is_TorchFinder x = true)); simpl; lia.
Qed.

Lemma follows_refl self w : follows self w w.
Proof. split; [done|]. exists []. rewrite app_nil_r. split; [done|]. intros _ n. apply not_elem_of_nil. Qed.

Lemma follows_trans self w1 w2 w3 :
  follows self w1 w2 → follows self w2 w3 → follows self w1 w3.
Proof.
  intros [Hs1 (t1 & Ht1 & Hn1)] [Hs2 (t2 & Ht2 & Hn2)]. split; [by etrans|].
  exists (t1 ++ t2). split; [by rewrite Ht2, Ht1, app_assoc|].
  intros Hout n. rewrite elem_of_app. intros [H|H].
  - by apply (Hn1 Hout n).
  - apply (Hn2 (λ Hin, Hout (elem_of_sublist _ _ _ Hin Hs1)) n H).
Qed.

Global Instance follows_preorder self : PreOrder (follows self).
Proof.
  split; [intros w; apply follows_refl|intros w1 w2 w3; apply follows_trans].
Qed.

Lemma follows_log self ev w :
  (∀ name, ev = EvConsult self name → self ∈ meta_path (py w)) →
  follows self w (log ev w).
Proof.
  intros Hev. split; [done|]. exists [ev]. split; [done|].
  intros Hout n Hin%list_elem_of_singleton. by apply Hout, (Hev n).
Qed.

Lemma follows_foreign {A} self (f : pystate → outcome A * pystate) w :
  keeps_meta_path f → follows self w (snd (foreign f w)).
Proof.
  intros Hkeep. unfold foreign. specialize (Hkeep (py w)).
  destruct (f (py w)) as [r s']. simpl in *. split; [simpl; by rewrite Hkeep|].
  exists []. rewrite app_nil_r. split; [done|]. intros _ n. apply not_elem_of_nil.
Qed.

Lemma follows_remove self fd w : follows self w (remove_from_meta_path fd w).
Proof.
  unfold remove_from_meta_path. simpl.
  destruct (list_remove fd (meta_path (py w))) as [l|] eqn:Hrm.
  - split; [by apply list_remove_sublist in Hrm|]. exists [EvRemove fd]. split; [done|].
    intros _ n H%list_elem_of_singleton. done.
  - apply follows_log. done.
Qed.



Section Resolution.

Variable E : externals.
Hypothesis HE : well_behaved E.
Variable self : finder.

Lemma consult_follows call fd name w r w' :
  call_follows self call →
  fd ∈ meta_path (py w) →
  consult E call fd name w = Some (r, w') →
  follows self w w'.
Proof.
  intros Hcall Hin. unfold consult.
  assert (follows self w (log (EvConsult fd name) w)) as Hlog.
  { apply follows_log. by intros n [= <- _]. }
  destruct fd as [a|a].
  - intros H%Hcall. by etrans.
  - intros [= Hrun]. apply (follows_trans _ _ _ _ Hlog).
    pose proof (follows_foreign self (foreign_find_spec E a name)
                  (log (EvConsult (ForeignFinder a) name) w) (wb_find E HE a name)) as Hf.
    by rewrite Hrun in Hf.
Qed.

Lemma _find_spec_loop_follows call steps i name is_reload w r w' :
  call_follows self call →
  _find_spec_loop E call steps i name is_reload w = Some (r, w') →
  follows self w w'.
Proof.
  intros Hcall. revert i w. induction steps as [|steps IH]; intros i w; simpl.
  - destruct (meta_path (py w) !! i); [done|]. intros [= _ <-]. apply follows_refl.
  - destruct (meta_path (py w) !! i) as [fd|] eqn:Hfd;
      [|intros [= _ <-]; apply follows_refl].
    apply list_elem_of_lookup_2 in Hfd.
    destruct (consult E call fd name w) as [[[[spec|]|e] w1]|] eqn:Hc; [..|done];
      pose proof (consult_follows _ _ _ _ _ _ Hcall Hfd Hc) as H1.
    + by intros [= _ <-].
    + intros H2%IH. by apply (follows_trans _ _ _ _ H1).
    + by intros [= _ <-].
Qed.

Lemma importlib_util_find_spec_follows call steps name w r w' :
  call_follows self call →
  importlib_util_find_spec E call steps name w = Some (r, w') →
  follows self w w'.
Proof.
  intros Hcall. unfold importlib_util_find_spec, _find_spec.
  destruct (sys_modules (py w) !! name) as [[|sp attrs|attrs|n]|];
    [intros [= _ <-]; apply follows_refl|..|by apply _find_spec_loop_follows];
    simpl; try (intros [= _ <-]; apply follows_refl).
  destruct sp as [[spec|]|]; intros [= _ <-]; apply follows_refl.
Qed.

Lemma _TorchFinder_find_spec_follows fuel :
  call_follows self (_TorchFinder_find_spec E fuel).
Proof.
  induction fuel as [|fuel IH]; intros fd name w r w'; simpl.
  - destruct (negb (String.eqb name "torch")); [|done].
    intros [= _ <-]. apply follows_refl.
  - destruct (negb (String.eqb name "torch")); [intros [= _ <-]; apply follows_refl|].
    destruct (importlib_util_find_spec E (_TorchFinder_find_spec E fuel) fuel name
                (log (EvDelegate name) (remove_from_meta_path fd w)))
      as [[real w2]|] eqn:Hreal; [|done].
    apply importlib_util_find_spec_follows in Hreal; [|done].
    assert (follows self w w2) as Hall.
    { apply (follows_trans _ _ _ _ (follows_remove self fd w)).
      refine (follows_trans _ _ _ _ _ Hreal). by apply follows_log. }
    destruct real as [[spec|]|e]; [destruct (spec_loader spec)|..]; by intros [= _ <-].
Qed.

End Resolution.

(** ** Termination of the resolution *)

Section Termination.

Variable E : externals.
Hypothesis HE : well_behaved E.





Lemma _TorchFinder_find_spec_S fuel self name w :
  _TorchFinder_find_spec E (S fuel) self name w =
    if negb (String.eqb name "torch") then Some (Ok None, w)
    else
      match importlib_util_find_spec E (_TorchFinder_find_spec E fuel) fuel name
              (log (EvDelegate name) (remove_from_meta_path self w)) with
      | None => None
      | Some (Raise e, w2) => Some (Raise e, w2)
      | Some (Ok None, w2) => Some (Ok None, w2)
      | Some (Ok (Some real_spec), w2) =>
          match spec_loader real_spec with
          | None => Some (Ok (Some real_spec), w2)
          | Some real_loader =>
              Some (Ok (Some (set_loader real_spec (WrappedTorchLoader real_loader))), w2)
          end
      end.
Proof. reflexivity. Qed.



End Termination.

Lemma remove_from_meta_path_trace self w :
  trace (remove_from_meta_path self w) = trace w ++ [EvRemove self].
Proof.
  unfold remove_from_meta_path. simpl.
  by destruct (list_remove self (meta_path (py w))).
Qed.



(** A run of [find_spec] for the target name: the removal, then the
    delegated resolution, whose world is the one returned. *)
Lemma _TorchFinder_find_spec_torch E fuel self w r w' :
  _TorchFinder_find_spec E fuel self "torch" w = Some (r, w') →
  ∃ fuel' real,
    fuel = S fuel' ∧
    importlib_util_find_spec E (_TorchFinder_find_spec E fuel') fuel' "torch"
      (log (EvDelegate "torch") (remove_from_meta_path self w)) = Some (real, w').
Proof.
  destruct fuel as [|fuel']; [done|]. rewrite _TorchFinder_find_spec_S. simpl.
  destruct (importlib_util_find_spec E (_TorchFinder_find_spec E fuel') fuel' "torch"
              (log (EvDelegate "torch") (remove_from_meta_path self w)))
    as [[real w2]|] eqn:Hreal; [|done].
  intros H. exists fuel', real. split; [done|]. rewrite Hreal.
  destruct real as [[spec|]|e]; [destruct (spec_loader spec)|..]; by simplify_eq.
Qed.





(** ** The registry under the operations of the hook *)

Lemma existsb_torch_finders l :
  existsb is_TorchFinder l = false ↔ torch_finders l = 0.
Proof.
  unfold torch_finders. induction l as [|f l IH]; simpl; [done|].
  rewrite filter_cons. destruct f as [a|a]; simpl.
  - split; [done|]. destruct (decide (true = true)); done.
  - destruct (decide (false = true)); done.
Qed.

Section Registry.

Variable E : externals.
Hypothesis HE : well_behaved E.





End Registry.



(** * Further properties *)

(** ** The flag *)

Lemma isspace_lower_char c : PyStr.isspace (PyStr.lower_char c) = PyStr.isspace c.
Proof. destruct c as [[] [] [] [] [] [] [] []]; reflexivity. Qed.

Lemma no_space_lower s : no_space (PyStr.lower s) = no_space s.
Proof.
  induction s as [|c s IH]; simpl; [done|]. by rewrite isspace_lower_char, IH.
Qed.

Lemma lstrip_app_space pre x :
  all_space pre = true → PyStr.lstrip (pre +:+ x) = PyStr.lstrip x.
Proof.
  induction pre as [|c pre IH]; simpl; [done|].
  intros [Hc Hpre]%andb_true_iff. rewrite Hc. by apply IH.
Qed.

Lemma rstrip_all_space post : all_space post = true → PyStr.rstrip post = "".
Proof.
  induction post as [|c post IH]; simpl; [done|].
  intros [Hc Hpost]%andb_true_iff. by rewrite IH, Hc.
Qed.

Lemma rstrip_app_space x post :
  all_space post = true → PyStr.rstrip (x +:+ post) = PyStr.rstrip x.
Proof.
  intros Hpost. induction x as [|c x IH]; simpl; [by apply rstrip_all_space|].
  by rewrite IH.
Qed.

Lemma rstrip_no_space x : no_space x = true → PyStr.rstrip x = x.
Proof.
  induction x as [|c x IH]; simpl; [done|].
  intros [Hc Hx]%andb_true_iff. rewrite IH by done.
  destruct x; [|done]. by destruct (PyStr.isspace c).
Qed.

Lemma lstrip_split s : ∃ pre, s = pre +:+ PyStr.lstrip s ∧ all_space pre = true.
Proof.
  induction s as [|c s (pre & Hs & Hpre)]; [by exists ""|]. simpl.
  destruct (PyStr.isspace c) eqn:Hc.
  - exists (String c pre). split; [exact (f_equal (String c) Hs)|simpl; by rewrite Hc].
  - by exists "".
Qed.

Lemma rstrip_split s : ∃ post, s = PyStr.rstrip s +:+ post ∧ all_space post = true.
Proof.
  induction s as [|c s (post & Hs & Hpost)]; [by exists ""|]. simpl.
  destruct (PyStr.rstrip s) as [|d r] eqn:Hr.
  - assert (s = post) as -> by exact Hs. destruct (PyStr.isspace c) eqn:Hc.
    + exists (String c post). split; simpl; [done|by rewrite Hc].
    + by exists post.
  - exists post. split; [|done]. exact (f_equal (String c) Hs).
Qed.

Lemma strip_padded pre core post :
  all_space pre = true → all_space post = true →
  no_space core = true → core ≠ "" →
  PyStr.strip (pre +:+ core +:+ post) = core.
Proof.
  intros Hpre Hpost Hcore Hne. unfold PyStr.strip.
  rewrite lstrip_app_space by done.
  destruct core as [|c core]; [done|]. simpl in *.
  apply andb_true_iff in Hcore as [Hc Hcore].
  apply negb_true_iff in Hc. rewrite Hc.
  change (String c (core +:+ post)) with (String c core +:+ post).
  rewrite rstrip_app_space by done. apply rstrip_no_space. simpl. by rewrite Hc, Hcore.
Qed.

(** X1: the flag enables the hook exactly when the value of LOVELY_TENSORS
    is one of the words "1", "true", "yes" in any letter case, with any
    whitespace before and after it and none inside. An unset variable counts
    as the empty value. *)
Theorem flag_accepts_padded_word (s : pystate) :
  flag_enabled s = true ↔
  ∃ pre core post,
    default "" (environ s !! "LOVELY_TENSORS") = pre +:+ core +:+ post ∧
    all_space pre = true ∧ all_space post = true ∧
    (PyStr.lower core = "1" ∨ PyStr.lower core = "true" ∨ PyStr.lower core = "yes").
Proof.
  rewrite flag_enabled_iff. unfold flag_value.
  set (v := default "" (environ s !! "LOVELY_TENSORS")). split.
  - intros Hword. destruct (lstrip_split v) as (pre & Hv & Hpre).
    destruct (rstrip_split (PyStr.lstrip v)) as (post & Hl & Hpost).
    exists pre, (PyStr.strip v), post. split_and!; [|done..].
    unfold PyStr.strip. by rewrite <- Hl.
  - intros (pre & core & post & -> & Hpre & Hpost & Hword).
    rewrite strip_padded; [done..| |].
    + rewrite <- no_space_lower. by destruct Hword as [->|[->| ->]].
    + intros ->. by destruct Hword as [?|[?|?]].
Qed.

(** ** Start-up, trigger and loader, composed *)

Lemma torch_patched_loaded s : torch_patched s = true → torch_loaded s = true.
Proof.
  unfold torch_patched, torch_loaded.
  by destruct (is_module (sys_modules_get "torch" s)).
Qed.

(** X2: with the flag set and [torch] already patched, the start-up code
    returns normally, leaves the interpreter state as it is and calls neither
    the patch routine nor the installer: the trace gains the trigger's entry
    only. *)
Theorem startup_on_patched_torch E (w : world) :
  flag_enabled (py w) = true →
  torch_patched (py w) = true →
  module_toplevel E w = (Ok tt, log EvTrigger w).
Proof.
  intros Hflag Hp. unfold module_toplevel.
  rewrite Hflag, (torch_patched_loaded _ Hp). by apply trigger_patched.
Qed.

Lemma startup_on_patched_torch_witness :
  module_toplevel Demo.failing patched_interpreter
    = (Ok tt, log EvTrigger patched_interpreter).
Proof.
  apply (startup_on_patched_torch Demo.failing patched_interpreter);
    vm_compute; reflexivity.
Defined.



(** X4: the start-up code raises only what the patch routine raised: if it
    raises [e], then the flag was set, [torch] was loaded and not patched, and
    the patch routine raised [e]; the world is the one the routine left, with
    the diagnostic written when [e] is an instance of [Exception]. *)
Theorem startup_raises_only_from_patch E (w w' : world) (e : exn) :
  module_toplevel E w = (Raise e, w') →
  flag_enabled (py w) = true ∧
  torch_loaded (py w) = true ∧
  torch_patched (py w) = false ∧
  ∃ w1, patch_routine E (log EvTrigger w) = (Raise e, w1) ∧
        w' = if is_Exception e
             then with_py (print_stderr (format ERROR_MESSAGE (exn_str e)) (py w1)) w1
             else w1.
Proof.
  unfold module_toplevel.
  destruct (flag_enabled (py w)); [|done].
  destruct (torch_loaded (py w)).
  - destruct (torch_patched (py w)) eqn:Hp.
    + by rewrite trigger_patched.
    + rewrite trigger_unpatched by done.
      destruct (patch_routine E (log EvTrigger w)) as [[[]|e1] w1]; [done|].
      intros Hrun. split_and!; [done..|]. exists w1.
      destruct (is_Exception e1) eqn:He; simplify_eq; by rewrite He.
  - by destruct (existsb is_TorchFinder (meta_path (py w))).
Qed.

Lemma startup_raises_only_from_patch_witness :
  ∃ w1, patch_routine Demo.failing (log EvTrigger Demo.torch_imported)
        = (Raise (Demo.RuntimeError "boom"), w1).
Proof.
  destruct (startup_raises_only_from_patch Demo.failing Demo.torch_imported
              (snd (module_toplevel Demo.failing Demo.torch_imported))
              (Demo.RuntimeError "boom")) as (_ & _ & _ & w1 & H & _).
  - vm_compute. reflexivity.
  - exists w1. exact H.
Defined.

Lemma patch_routine_ok E w w' :
  patch_routine E w = (Ok tt, w') →
  ∃ s1, import_lovely_tensors E (py w) = (Ok tt, s1) ∧
        monkey_patch E s1 = (Ok tt, py w') ∧
        trace w' = trace w ++ [EvImportLovelyTensors; EvMonkeyPatch].
Proof.
  rewrite patch_routine_run.
  destruct (import_lovely_tensors E (py w)) as [[[]|e] s1] eqn:Hi; [|done].
  destruct (monkey_patch E s1) as [[[]|e] s2] eqn:Hp; [|done].
  intros [= <-]. exists s1. simpl. split_and!; [done..|]. by rewrite <- app_assoc.
Qed.

Lemma trigger_ok_patched E w w' :
  patch_establishes E →
  _after_import_torch E w = (Ok tt, w') →
  torch_patched (py w') = true.
Proof.
  intros Hest. destruct (torch_patched (py w)) eqn:Hp.
  - rewrite trigger_patched by done. by intros [= <-].
  - rewrite trigger_unpatched by done.
    destruct (patch_routine E (log EvTrigger w)) as [[[]|e] w1] eqn:Hr.
    + intros [= <-]. apply patch_routine_ok in Hr as (s1 & _ & Hpatch & _).
      by apply (Hest _ _ Hpatch).
    + by destruct (is_Exception e).
Qed.

(** X5: with a patch routine that sets the marker whenever it returns,
    normal return means patched: after the trigger returns, after
    [exec_module] of a wrapping loader returns, and after the start-up code
    returns with the flag set and [torch] loaded, [torch_patched] is true. *)
Theorem success_means_patched E :
  patch_establishes E →
  (∀ w w', _after_import_torch E w = (Ok tt, w') → torch_patched (py w') = true) ∧
  (∀ l module w w',
     exec_module E (WrappedTorchLoader l) module w = (Ok tt, w') →
     torch_patched (py w') = true) ∧
  (∀ w w', flag_enabled (py w) = true → torch_loaded (py w) = true →
           module_toplevel E w = (Ok tt, w') → torch_patched (py w') = true).
Proof.
  intros Hest. split_and!.
  - intros w w'. by apply trigger_ok_patched.
  - intros l module w w'. simpl. unfold bind at 1.
    destruct (exec_module E l module w) as [[[]|e] w1]; [|done].
    by apply trigger_ok_patched.
  - intros w w' Hflag Hl. unfold module_toplevel. rewrite Hflag, Hl.
    by apply trigger_ok_patched.
Qed.

Lemma careful_establishes : patch_establishes Careful.installation.
Proof.
  intros s s'. simpl. unfold Careful.monkey_patch.
  destruct (sys_modules s !! "torch") as [[|sp attrs|attrs|n]|] eqn:Hm; try done.
  destruct (attrs !! "Tensor") as [[|sp' t|t|n]|] eqn:HT; try done.
  intros [= <-]. unfold torch_patched, sys_modules_get, Demo.set_rgb. simpl.
  rewrite lookup_alter_eq, Hm. simpl. rewrite lookup_alter_eq, HT. simpl.
  apply bool_decide_eq_true. by rewrite lookup_insert_eq.
Qed.

Lemma success_means_patched_witness :
  torch_patched
    (py (snd (exec_module Careful.installation (WrappedTorchLoader (RealLoader 5))
                VNone Demo.fresh))) = true.
Proof.
  destruct (success_means_patched Careful.installation careful_establishes)
    as (_ & Hexec & _).
  apply (Hexec (RealLoader 5) VNone Demo.fresh). vm_compute. reflexivity.
Defined.

(** X6: [exec_module] of a wrapping loader raises [e] exactly when the
    loader it holds raised [e], or that loader returned, [torch] was not
    patched and the patch routine raised [e]. The wrapper raises nothing of
    its own. *)
Theorem exec_module_raises_iff E (l : loader) (module : value) (w w' : world) (e : exn) :
  exec_module E (WrappedTorchLoader l) module w = (Raise e, w') ↔
  exec_module E l module w = (Raise e, w') ∨
  ∃ w1 w2,
    exec_module E l module w = (Ok tt, w1) ∧
    torch_patched (py w1) = false ∧
    patch_routine E (log EvTrigger w1) = (Raise e, w2) ∧
    w' = if is_Exception e
         then with_py (print_stderr (format ERROR_MESSAGE (exn_str e)) (py w2)) w2
         else w2.
Proof.
  simpl. unfold bind at 1.
  destruct (exec_module E l module w) as [[[]|e1] w1] eqn:Hreal.
  - destruct (torch_patched (py w1)) eqn:Hp.
    + rewrite trigger_patched by done. split; [done|].
      intros [?|(? & ? & ? & ? & _)]; simplify_eq; congruence.
    + rewrite trigger_unpatched by done.
      destruct (patch_routine E (log EvTrigger w1)) as [[[]|e2] w2] eqn:Hr.
      * split; [done|]. intros [?|(? & ? & ? & _ & ? & _)]; simplify_eq; congruence.
      * split.
        -- intros Hrun. right. exists w1, w2.
           destruct (is_Exception e2) eqn:He; simplify_eq; by rewrite He.
        -- intros [H|(w1' & w2' & H1 & _ & H2 & ->)]; [congruence|].
           injection H1 as <-. rewrite Hr in H2. injection H2 as -> ->.
           by destruct (is_Exception e).
  - split; [by left|]. intros [?|(? & ? & ? & _)]; by simplify_eq.
Qed.

(** X7: [create_module] of a wrapping loader, however many wrappers deep,
    comes down to the loader of the other package at the end of the chain:
    when that loader has a [create_module] it is called once and its result
    returned, otherwise the answer is [None] and the world is untouched. The
    trigger and the patch routine play no part in module creation. *)
Theorem create_module_innermost E (l : loader) (spec : ModuleSpec) (w : world) :
  create_module E (WrappedTorchLoader l) spec w =
    if real_has_create_module E (innermost l)
    then foreign (real_create_module E (innermost l) spec)
           (log (EvRealCreate (innermost l)) w)
    else (Ok VNone, w).
Proof.
  induction l as [a|l IH].
  - simpl. by destruct (real_has_create_module E a).
  - change (create_module E (WrappedTorchLoader (WrappedTorchLoader l)) spec w)
      with (create_module E (WrappedTorchLoader l) spec w).
    exact IH.
Qed.

Lemma trigger_patch_calls E w :
  patch_calls (trace (snd (_after_import_torch E w))) ≤ S (patch_calls (trace w)) ∧
  (torch_patched (py w) = true →
   patch_calls (trace (snd (_after_import_torch E w))) = patch_calls (trace w)).
Proof.
  destruct (torch_patched (py w)) eqn:Hp.
  - rewrite trigger_patched by done. simpl. rewrite patch_calls_app.
    change (patch_calls [EvTrigger]) with 0. lia.
  - split; [|done]. rewrite trigger_unpatched, patch_routine_run by done. simpl.
    destruct (import_lovely_tensors E (py w)) as [[[]|e] s1].
    + destruct (monkey_patch E s1) as [[[]|e] s2]; [|destruct (is_Exception e)];
        simpl; rewrite !patch_calls_app;
        change (patch_calls [EvTrigger]) with 0;
        change (patch_calls [EvImportLovelyTensors]) with 0;
        change (patch_calls [EvMonkeyPatch]) with 1; lia.
    + destruct (is_Exception e); simpl; rewrite !patch_calls_app;
        change (patch_calls [EvTrigger]) with 0;
        change (patch_calls [EvImportLovelyTensors]) with 0; lia.
Qed.

Lemma exec_module_patch_calls E l module w :
  patch_establishes E →
  let '(r, w') := exec_module E l module w in
  patch_calls (trace w') ≤ S (patch_calls (trace w)) ∧
  (r = Ok tt →
   patch_calls (trace w') = patch_calls (trace w) ∨ torch_patched (py w') = true).
Proof.
  intros Hest. revert w. induction l as [a|l IH]; intros w.
  - simpl. unfold bind, emit, foreign. simpl.
    destruct (real_exec_module E a module (py w)) as [r s']. simpl.
    rewrite patch_calls_app. change (patch_calls [EvRealExec a]) with 0.
    split; [lia|]. intros _. left. lia.
  - simpl. unfold bind at 1. specialize (IH w).
    destruct (exec_module E l module w) as [[[]|e] w1]; [|by destruct IH].
    destruct IH as [Hle Hok].
    pose proof (trigger_patch_calls E w1) as [Hle1 Hsame].
    destruct (_after_import_torch E w1) as [r w2] eqn:Hrun. simpl in *. split.
    + destruct (Hok eq_refl) as [Heq|Hp]; [lia|]. rewrite Hsame by done. lia.
    + intros ->. right. by apply (trigger_ok_patched E w1).
Qed.

(** X8: with a patch routine that sets the marker whenever it returns, one
    [exec_module] calls the patch routine at most once, however many wrapping
    loaders are stacked: the trigger of each outer wrapper finds [torch]
    patched. *)
Theorem stacked_wrappers_patch_once E (l : loader) (module : value) (w : world) :
  patch_establishes E →
  patch_calls (trace (snd (exec_module E l module w))) ≤ S (patch_calls (trace w)).
Proof.
  intros Hest. pose proof (exec_module_patch_calls E l module w Hest) as H.
  destruct (exec_module E l module w) as [r w']. by destruct H.
Qed.

Lemma stacked_wrappers_patch_once_witness :
  patch_calls
    (trace (snd (exec_module Careful.installation
                   (WrappedTorchLoader (WrappedTorchLoader (RealLoader 5)))
                   VNone Demo.fresh))) ≤ 1.
Proof.
  exact (stacked_wrappers_patch_once Careful.installation
           (WrappedTorchLoader (WrappedTorchLoader (RealLoader 5))) VNone Demo.fresh
           careful_establishes).
Defined.

(** ** Resolution without and with the finder *)

Lemma torch_finders_foreign l fd :
  torch_finders l = 0 → fd ∈ l → ∃ a, fd = ForeignFinder a.
Proof.
  unfold torch_finders. intros Hnone Hin.
  destruct fd as [a|a]; [|by exists a].
  assert (TorchFinder a ∈ filter (λ f, is_TorchFinder f = true) l) as Hf
    by (by apply list_elem_of_filter).
  destruct (filter (λ f, is_TorchFinder f = true) l); [|done].
  by apply elem_of_nil in Hf.
Qed.

Lemma list_remove_torch_finders x l l' :
  is_TorchFinder x = true → list_remove x l = Some l' →
  torch_finders l = S (torch_finders l').
Proof.
  intros Hx. unfold torch_finders. revert l'.
  induction l as [|y l IH]; intros l'; simpl; [done|].
  destruct (decide (y = x)) as [->|Hne].
  - intros [= ->]. by rewrite filter_cons_True.
  - destruct (list_remove x l) as [k|]; simpl; [|done].
    intros [= <-]. rewrite !filter_cons.
    destruct (decide (is_TorchFinder y = true)); simpl; by rewrite (IH k).
Qed.

Section NoHook.

Variable E : externals.
Hypothesis HE : well_behaved E.

Lemma _find_spec_loop_no_hook call call' steps i name is_reload w v :
  torch_finders (meta_path (py w)) = 0 →
  py w = py v →
  same_answer (_find_spec_loop E call steps i name is_reload w)
              (_find_spec_loop E call' steps i name is_reload v) ∧
  ∀ r w', _find_spec_loop E call steps i name is_reload w = Some (r, w') →
          meta_path (py w') = meta_path (py w).
Proof.
  revert i w v. induction steps as [|steps IH]; intros i w v Hnone Hpy; simpl.
  - rewrite <- Hpy. destruct (meta_path (py w) !! i); [done|].
    split; [done|]. by intros r w' [= _ <-].
  - rewrite <- Hpy. destruct (meta_path (py w) !! i) as [fd|] eqn:Hfd;
      [|split; [done|]; by intros r w' [= _ <-]].
    destruct (torch_finders_foreign _ fd Hnone (list_elem_of_lookup_2 _ _ _ Hfd))
      as [a ->].
    simpl. unfold foreign. simpl. rewrite <- Hpy.
    pose proof (wb_find E HE a name (py w)) as Hkeep.
    destruct (foreign_find_spec E a name (py w)) as [[[spec|]|e] s']; simpl in *.
    + unfold found. simpl. split; [done|]. by intros r w' [= _ <-].
    + destruct (IH (S i)
                  (with_py s' (log (EvConsult (ForeignFinder a) name) w))
                  (with_py s' (log (EvConsult (ForeignFinder a) name) v)))
        as [Hsame Hmp]; [simpl; by rewrite Hkeep|done|].
      split; [done|]. intros r w' Hrun. rewrite (Hmp _ _ Hrun). done.
    + split; [done|]. by intros r w' [= _ <-].
Qed.

Lemma importlib_util_find_spec_no_hook call call' steps name w v :
  torch_finders (meta_path (py w)) = 0 →
  py w = py v →
  same_answer (importlib_util_find_spec E call steps name w)
              (importlib_util_find_spec E call' steps name v) ∧
  ∀ r w', importlib_util_find_spec E call steps name w = Some (r, w') →
          meta_path (py w') = meta_path (py w).
Proof.
  intros Hnone Hpy. unfold importlib_util_find_spec, _find_spec. rewrite <- Hpy.
  destruct (sys_modules (py w) !! name) as [[|sp attrs|attrs|n]|]; simpl;
    try (split; [done|]; by intros r w' [= _ <-]).
  - destruct sp as [[spec|]|]; split; try done; by intros r w' [= _ <-].
  - by apply _find_spec_loop_no_hook.
Qed.

End NoHook.

(** X9: once the only registered finder of the class has answered for
    "torch", no finder of the class is registered, and every later resolution
    of any name goes the way it would go if the class did not exist: its
    answer and the interpreter state it leaves do not depend on how a
    [_TorchFinder] would answer. *)
Theorem fired_finder_is_inert E (self : finder) (w w' : world) (fuel : nat)
    (r : outcome (option ModuleSpec)) :
  well_behaved E →
  torch_finders (meta_path (py w)) ≤ 1 →
  self ∈ meta_path (py w) →
  is_TorchFinder self = true →
  _TorchFinder_find_spec E fuel self "torch" w = Some (r, w') →
  torch_finders (meta_path (py w')) = 0 ∧
  ∀ call steps name,
    same_answer (importlib_util_find_spec E call steps name w')
                (importlib_util_find_spec E unasked steps name w').
Proof.
  intros HE Hone Hin Hself Hrun.
  assert (torch_finders (meta_path (py w')) = 0) as Hnone.
  { apply _TorchFinder_find_spec_torch in Hrun as (fuel' & real & -> & Hreal).
    apply (importlib_util_find_spec_follows E HE self) in Hreal as [Hsub _];
      [|by apply _TorchFinder_find_spec_follows].
    apply torch_finders_sublist in Hsub. simpl in Hsub.
    unfold remove_from_meta_path in Hsub. simpl in Hsub.
    destruct (list_remove self (meta_path (py w))) as [l|] eqn:Hrm.
    - apply (list_remove_torch_finders _ _ _ Hself) in Hrm. simpl in Hsub. lia.
    - by apply list_remove_None in Hrm. }
  split; [done|]. intros call steps name.
  by apply importlib_util_find_spec_no_hook.
Qed.

Lemma fired_finder_is_inert_witness :
  torch_finders
    (meta_path (py (snd (default (Ok None, Demo.armed)
       (_TorchFinder_find_spec Demo.working 3 (TorchFinder 7) "torch" Demo.armed))))) = 0.
Proof.
  destruct (fired_finder_is_inert Demo.working (TorchFinder 7) Demo.armed
              (snd (default (Ok None, Demo.armed)
                 (_TorchFinder_find_spec Demo.working 3 (TorchFinder 7) "torch" Demo.armed)))
              3 (Ok (Some (set_loader Demo.torch_spec (WrappedTorchLoader (RealLoader 5)))))
              working_well_behaved) as [H _].
  - vm_compute. lia.
  - vm_compute. apply list_elem_of_here.
  - reflexivity.
  - vm_compute. reflexivity.
  - exact H.
Defined.

Lemma resolves_refl w : resolves w w.
Proof. exists []. by rewrite app_nil_r. Qed.

Lemma resolves_trans w1 w2 w3 : resolves w1 w2 → resolves w2 w3 → resolves w1 w3.
Proof.
  intros (t1 & Ht1 & H1) (t2 & Ht2 & H2). exists (t1 ++ t2).
  split; [by rewrite Ht2, Ht1, app_assoc|]. by apply Forall_app.
Qed.

Lemma resolves_log ev w : resolution_event ev = true → resolves w (log ev w).
Proof. intros Hev. exists [ev]. split; [done|]. by apply Forall_singleton. Qed.

Lemma resolves_foreign {A} (f : pystate → outcome A * pystate) w :
  resolves w (snd (foreign f w)).
Proof.
  unfold foreign. destruct (f (py w)) as [r s']. exists []. simpl.
  by rewrite app_nil_r.
Qed.

Lemma resolves_remove self w : resolves w (remove_from_meta_path self w).
Proof.
  exists [EvRemove self]. split; [apply remove_from_meta_path_trace|].
  by apply Forall_singleton.
Qed.

(** The loop only resolves when the finders of the class do. *)
Lemma _find_spec_loop_resolves E call steps i name is_reload w r w' :
  (∀ fd n w0 r0 w1, call fd n w0 = Some (r0, w1) → resolves w0 w1) →
  _find_spec_loop E call steps i name is_reload w = Some (r, w') →
  resolves w w'.
Proof.
  intros Hcall. revert i w. induction steps as [|steps IH]; intros i w; simpl.
  - destruct (meta_path (py w) !! i); [done|]. intros [= _ <-]. apply resolves_refl.
  - destruct (meta_path (py w) !! i) as [fd|]; [|intros [= _ <-]; apply resolves_refl].
    assert (∀ r1 w1, consult E call fd name w = Some (r1, w1) → resolves w w1) as Hc.
    { intros r1 w1. unfold consult.
      pose proof (resolves_log (EvConsult fd name) w eq_refl) as Hlog.
      destruct fd as [a|a].
      - intros H%Hcall. by apply (resolves_trans _ _ _ Hlog).
      - intros [= Hrun]. apply (resolves_trans _ _ _ Hlog).
        pose proof (resolves_foreign (foreign_find_spec E a name)
                      (log (EvConsult (ForeignFinder a) name) w)) as Hf.
        by rewrite Hrun in Hf. }
    destruct (consult E call fd name w) as [[[[spec|]|e] w1]|]; [..|done];
      specialize (Hc _ _ eq_refl).
    + by intros [= _ <-].
    + intros H%IH. by apply (resolves_trans _ _ _ Hc).
    + by intros [= _ <-].
Qed.

Lemma importlib_util_find_spec_resolves E call steps name w r w' :
  (∀ fd n w0 r0 w1, call fd n w0 = Some (r0, w1) → resolves w0 w1) →
  importlib_util_find_spec E call steps name w = Some (r, w') →
  resolves w w'.
Proof.
  intros Hcall. unfold importlib_util_find_spec, _find_spec.
  destruct (sys_modules (py w) !! name) as [[|sp attrs|attrs|n]|];
    [intros [= _ <-]; apply resolves_refl|..|by apply _find_spec_loop_resolves];
    simpl; try (intros [= _ <-]; apply resolves_refl).
  destruct sp as [[spec|]|]; intros [= _ <-]; apply resolves_refl.
Qed.

(** X10: resolving never patches and never runs a module: whatever is
    registered, a call of [find_spec] that returns has added to the trace
    only removals from the registry, delegations and consultations of
    finders; the trigger, the patch routine, the loaders and the installer
    are not called. *)
Theorem find_spec_only_resolves E (fuel : nat) (self : finder) (name : string)
    (w w' : world) (r : outcome (option ModuleSpec)) :
  _TorchFinder_find_spec E fuel self name w = Some (r, w') →
  ∃ t, trace w' = trace w ++ t ∧
       Forall (λ ev, resolution_event ev = true) t ∧
       patch_calls t = 0.
Proof.
  intros Hrun.
  assert (∀ t, Forall (λ ev, resolution_event ev = true) t → patch_calls t = 0) as Hpc.
  { intros t Ht. unfold patch_calls. induction Ht as [|ev t Hev _ IH]; [done|].
    rewrite filter_cons. destruct (decide (ev = EvMonkeyPatch)) as [->|]; done. }
  assert (resolves w w') as (t & Ht & Hall); [|by eauto].
  revert self name w r w' Hrun. induction fuel as [|fuel IH]; intros self name w r w'.
  - simpl. destruct (negb (String.eqb name "torch")); [|done].
    intros [= _ <-]. apply resolves_refl.
  - rewrite _TorchFinder_find_spec_S.
    destruct (negb (String.eqb name "torch")); [intros [= _ <-]; apply resolves_refl|].
    destruct (importlib_util_find_spec E (_TorchFinder_find_spec E fuel) fuel name
                (log (EvDelegate name) (remove_from_meta_path self w)))
      as [[real w2]|] eqn:Hreal; [|done].
    apply importlib_util_find_spec_resolves in Hreal; [|by eauto].
    assert (resolves w w2) as Hall.
    { apply (resolves_trans _ _ _ (resolves_remove self w)).
      refine (resolves_trans _ _ _ _ Hreal). by apply resolves_log. }
    destruct real as [[spec|]|e]; [destruct (spec_loader spec)|..]; by intros [= _ <-].
Qed.

Lemma find_spec_only_resolves_witness :
  ∃ t, trace (snd (default (Ok None, Demo.armed)
         (_TorchFinder_find_spec Demo.working 3 (TorchFinder 7) "torch" Demo.armed)))
       = trace Demo.armed ++ t ∧ patch_calls t = 0.
Proof.
  destruct (find_spec_only_resolves Demo.working 3 (TorchFinder 7) "torch" Demo.armed
              (snd (default (Ok None, Demo.armed)
                 (_TorchFinder_find_spec Demo.working 3 (TorchFinder 7) "torch" Demo.armed)))
              (Ok (Some (set_loader Demo.torch_spec (WrappedTorchLoader (RealLoader 5))))))
    as (t & Ht & _ & Hpc).
  - vm_compute. reflexivity.
  - exists t. split; [exact Ht|exact Hpc].
Defined.

(** X11: the finder is transparent but for the wrapper. With the finder at
    the front of a registry that holds no other finder of the class, and
    "torch" not in [sys.modules] before or after: when the import system
    without the finder finds a specification or raises, the import system
    with the finder gives the same outcome, the loader (if there is one)
    wrapped, and leaves the same interpreter state. *)
Theorem finder_is_transparent E (a : nat) (rest : list finder) (w v : world)
    (fuel : nat) (real : outcome (option ModuleSpec)) :
  well_behaved E →
  meta_path (py w) = TorchFinder a :: rest →
  torch_finders rest = 0 →
  sys_modules (py w) !! "torch" = None →
  _find_spec E unasked fuel "torch" (with_meta_path rest w) = Some (real, v) →
  real ≠ Ok None →
  sys_modules (py v) !! "torch" = None →
  ∃ r w',
    _find_spec E (_TorchFinder_find_spec E (S fuel)) (S fuel) "torch" w = Some (r, w') ∧
    wraps real r ∧
    py w' = py v.
Proof.
  intros HE Hmp Hrest Hmod Hplain Hfound Hafter.
  unfold _find_spec in *. simpl in Hplain. rewrite Hmod in *. simpl in Hplain.
  cbn [_find_spec_loop]. rewrite Hmp. cbn [lookup list_lookup consult].
  rewrite _TorchFinder_find_spec_S. simpl.
  unfold importlib_util_find_spec, _find_spec.
  set (w1 := log (EvDelegate "torch")
               (remove_from_meta_path (TorchFinder a)
                  (log (EvConsult (TorchFinder a) "torch") w))).
  assert (py w1 = py (with_meta_path rest w)) as Hpy.
  { unfold w1, remove_from_meta_path. simpl. rewrite Hmp. simpl.
    by rewrite decide_True. }
  assert (sys_modules (py w1) !! "torch" = None) as Hmod1 by (by rewrite Hpy).
  rewrite Hmod1. simpl.
  destruct (_find_spec_loop_no_hook E HE (_TorchFinder_find_spec E fuel) unasked
              fuel 0 "torch" false w1 (with_meta_path rest w)) as [Hsame _];
    [by rewrite Hpy|done|].
  rewrite Hplain in Hsame.
  destruct (_find_spec_loop E (_TorchFinder_find_spec E fuel) fuel 0 "torch" false w1)
    as [[real' w2]|]; [|done].
  destruct Hsame as [-> Hpy2].
  destruct real as [[spec|]|e]; [|done|].
  - assert (∀ sp, found sp "torch" false w2 = sp) as Hf.
    { intros sp. unfold found. simpl. rewrite Hpy2, Hafter. done. }
    destruct (spec_loader spec) as [real_loader|] eqn:Hl.
    + eexists _, w2. split; [by rewrite Hf|]. split; [by apply wraps_loader|done].
    + eexists _, w2. split; [by rewrite Hf|]. split; [by apply wraps_no_loader|done].
  - eexists _, w2. split; [done|]. split; [constructor|done].
Qed.

Lemma finder_is_transparent_witness :
  ∃ r w', _find_spec Demo.working (_TorchFinder_find_spec Demo.working 2) 2 "torch" Demo.armed
            = Some (r, w') ∧
          wraps (Ok (Some Demo.torch_spec)) r.
Proof.
  destruct (finder_is_transparent Demo.working 7 [ForeignFinder 1] Demo.armed
              (snd (default (Ok None, Demo.armed)
                 (_find_spec Demo.working unasked 1 "torch"
                    (with_meta_path [ForeignFinder 1] Demo.armed))))
              1 (Ok (Some Demo.torch_spec)) working_well_behaved)
    as (r & w' & Hrun & Hwraps & _).
  - reflexivity.
  - reflexivity.
  - reflexivity.
  - vm_compute. reflexivity.
  - discriminate.
  - reflexivity.
  - exists r, w'. split; [exact Hrun|exact Hwraps].
Defined.

(** X12: installing and firing is a round trip on the registry. When the
    start-up code installs its finder into a registry without a finder of the
    class, and that finder is then asked for "torch", the registry is
    afterwards the list it was before the start-up code ran, order
    included. *)
Theorem install_then_fire_restores E (w w2 : world) (fuel : nat)
    (r : outcome (option ModuleSpec)) :
  well_behaved E →
  flag_enabled (py w) = true →
  torch_loaded (py w) = false →
  torch_finders (meta_path (py w)) = 0 →
  _TorchFinder_find_spec E fuel (TorchFinder (next_addr (py w))) "torch"
    (snd (module_toplevel E w)) = Some (r, w2) →
  meta_path (py (snd (module_toplevel E w)))
    = TorchFinder (next_addr (py w)) :: meta_path (py w) ∧
  meta_path (py w2) = meta_path (py w).
Proof.
  intros HE Hflag Hl Hnone.
  assert (module_toplevel E w = install_finder w) as ->.
  { unfold module_toplevel. rewrite Hflag, Hl.
    by rewrite (proj2 (existsb_torch_finders _) Hnone). }
  rewrite install_finder_run. simpl. intros Hrun. split; [done|].
  apply _TorchFinder_find_spec_torch in Hrun as (fuel' & real & -> & Hreal).
  unfold remove_from_meta_path in Hreal. simpl in Hreal.
  rewrite decide_True in Hreal by done.
  match type of Hreal with
  | importlib_util_find_spec _ _ _ _ ?w1 = _ =>
      destruct (importlib_util_find_spec_no_hook E HE (_TorchFinder_find_spec E fuel')
                  unasked fuel' "torch" w1 w1) as [_ Hkeep]; [exact Hnone|reflexivity|]
  end.
  by rewrite (Hkeep _ _ Hreal).
Qed.

Lemma install_then_fire_restores_witness :
  meta_path (py (snd (default (Ok None, Demo.fresh)
     (_TorchFinder_find_spec Demo.working 3 (TorchFinder 100) "torch"
        (snd (module_toplevel Demo.working Demo.fresh))))))
  = meta_path (py Demo.fresh).
Proof.
  destruct (install_then_fire_restores Demo.working Demo.fresh
              (snd (default (Ok None, Demo.fresh)
                 (_TorchFinder_find_spec Demo.working 3 (TorchFinder 100) "torch"
                    (snd (module_toplevel Demo.working Demo.fresh)))))
              3 (Ok (Some (set_loader Demo.torch_spec (WrappedTorchLoader (RealLoader 5)))))
              working_well_behaved) as [_ H].
  - vm_compute. reflexivity.
  - vm_compute. reflexivity.
  - vm_compute. reflexivity.
  - vm_compute. reflexivity.
  - exact H.
Defined.

(** X13: when [import lovely_tensors] itself fails with an instance of
    [Exception] (the package was uninstalled and the hook file left behind),
    the trigger never reaches [monkey_patch]: it writes the diagnostic with
    the text of the import error to the interpreter state the import left,
    and raises the import error. *)
Theorem failed_import_is_diagnosed E (w : world) (e : exn) (s1 : pystate) :
  torch_patched (py w) = false →
  import_lovely_tensors E (py w) = (Raise e, s1) →
  is_Exception e = true →
  _after_import_torch E w =
    (Raise e,
     {| py := print_stderr (diagnostic_head +:+ exn_str e +:+ diagnostic_tail) s1;
        trace := trace w ++ [EvTrigger; EvImportLovelyTensors] |}) ∧
  patch_calls (trace w ++ [EvTrigger; EvImportLovelyTensors]) = patch_calls (trace w).
Proof.
  intros Hp Himport He. split.
  - rewrite trigger_unpatched, patch_routine_run by done.
    cbn [py log]. rewrite Himport, He. unfold with_py. cbn [py trace].
    rewrite format_ERROR_MESSAGE. unfold log. cbn [trace]. by rewrite <- app_assoc.
  - rewrite patch_calls_app.
    change (patch_calls [EvTrigger; EvImportLovelyTensors]) with 0. lia.
Qed.

Lemma failed_import_is_diagnosed_witness :
  PyStr.contains
    (stderr (py (snd (_after_import_torch uninstalled Demo.torch_imported))))
    "No module named 'lovely_tensors'" = true.
Proof.
  destruct (failed_import_is_diagnosed uninstalled Demo.torch_imported
              {| exn_cls := ClsException; exn_name := "ModuleNotFoundError";
                 exn_str := "No module named 'lovely_tensors'" |}
              (py Demo.torch_imported)) as [Hrun _].
  - vm_compute. reflexivity.
  - reflexivity.
  - reflexivity.
  - rewrite Hrun. vm_compute. reflexivity.
Defined.
